(** * dubbo-go: xDS client validation and shutdown, ORCA load-report codec,
      dynamic-configuration options

    A shallow embedding of three Go source files:

    - [config_center/dynamic_configuration.go]: the functional options
      [WithGroup] and [WithTimeout];
    - [xds/client/client.go]: the update validator, [Close] and [SetMetadata]
      of [clientImpl];
    - [xds/balancer/orca/orca.go]: the load-report codec and its transport
      metadata.

    Go strings are byte sequences and are modelled by [string]; a [[]byte] is
    a [list Byte.byte]; a pointer that may be nil is an [option]; a Go map is a
    [gmap].  Definitions come first, theorems follow. *)

From Stdlib Require Import ZArith Ascii String.
From Stdlib.Strings Require Import Byte.
From stdpp Require Import base option list strings gmap.

(* ===================================================================== *)
(** * Package [fmt]: formatted errors *)
(* ===================================================================== *)

Module fmt.

(** A value built by [fmt.Errorf(format, a...)].  Every operand passed by
    the embedded code is a Go string.  A nil [error] is [None] at type
    [option error]. *)
Inductive error : Type :=
  | Errorf (format : string) (a : list string).

#[global] Instance error_eq_dec : EqDecision error.
Proof. solve_decision. Defined.

Section Sprintf.

(** [strconv.Quote], which the verb [%q] applies to a string operand.  It
    depends on Unicode tables and is left abstract. *)
Variable Quote : string -> string.

(** The fragment of [fmt.Sprintf] that the embedded formats use: literal
    text, [%%], and the verbs [%q], [%s] and [%v] on string operands, with
    exactly as many operands as verbs.  [None] outside that fragment. *)
Fixpoint Sprintf (format : string) (a : list string) : option string :=
  match format with
  | EmptyString =>
      match a with [] => Some EmptyString | _ :: _ => None end
  | String "%" (String v rest) =>
      if Ascii.eqb v "%" then String "%" <$> Sprintf rest a
      else
        match a with
        | [] => None
        | x :: a' =>
            if Ascii.eqb v "q" then (String.append (Quote x)) <$> Sprintf rest a'
            else if Ascii.eqb v "s" || Ascii.eqb v "v"
                 then (String.append x) <$> Sprintf rest a'
                 else None
        end
  | String "%" EmptyString => None
  | String ch rest => String ch <$> Sprintf rest a
  end.

(** [err.Error()]. *)
Definition Error (err : error) : option string :=
  match err with Errorf format a => Sprintf format a end.

End Sprintf.

End fmt.

(* ===================================================================== *)
(** * Package [config_center] *)
(* ===================================================================== *)

Module config_center.

(** [time.Duration] is an [int64] count of nanoseconds. *)
Definition Duration : Type := Z.

Record Options : Type := mkOptions {
  Group : string;
  Timeout : Duration
}.

(** [type Option func( *Options )]: the closure mutates the record behind the
    pointer, so it is a transformer of the pointee. *)
Definition Option : Type := Options -> Options.

Definition WithGroup (group : string) : Option :=
  fun opt => {| Group := group; Timeout := Timeout opt |}.

Definition WithTimeout (time : Duration) : Option :=
  fun opt => {| Group := Group opt; Timeout := time |}.

End config_center.

(* ===================================================================== *)
(** * Package [bootstrap] (declarations used by the client) *)
(* ===================================================================== *)

Module bootstrap.

(** Modelled from the spec: the bootstrap package is not among the source
    files.  The spec lists what the client reads from it: the default server
    identity, the per-authority server identity table and the
    certificate-provider-instance table keyed by name.  A server identity is
    the string [ServerConfig.String()].  The validator only tests whether a
    name is a key of [CertProviderConfigs]; the content of an entry is never
    read. *)
Record BuildableConfig : Type := mkBuildableConfig {
  pluginName : string;
  pluginConfig : list byte
}.

Record Config : Type := mkConfig {
  XDSServer : string;
  Authorities : gmap string string;
  CertProviderConfigs : gmap string BuildableConfig
}.

End bootstrap.

(* ===================================================================== *)
(** * Package [resource] (declarations used by the client) *)
(* ===================================================================== *)

Module resource.

(** The resource package is not among the source files either; the records
    below carry the fields that [client.go] reads. *)
Record SecurityConfig : Type := mkSecurityConfig {
  RootInstanceName : string;
  IdentityInstanceName : string
}.

Module FilterChain.
Record t : Type := mk { SecurityCfg : option SecurityConfig }.
End FilterChain.

(** Modelled from the spec: [FilterChainManager] and its [Validate] method.
    The spec says of a listener update carrying an inbound filter-chain set:
    "validate every chain's security config".  The set is the sequence of its
    chains (pointers, so possibly nil); [Validate f] applies [f] to each
    chain in turn and returns the first error. *)
Definition FilterChainManager : Type := list (option FilterChain.t).

Fixpoint Validate (fci : FilterChainManager)
    (f : option FilterChain.t -> option fmt.error) : option fmt.error :=
  match fci with
  | [] => None
  | fc :: rest =>
      match f fc with
      | Some err => Some err
      | None => Validate rest f
      end
  end.

Record InboundListenerConfig : Type := mkInboundListenerConfig {
  FilterChains : option FilterChainManager
}.

Record ListenerUpdate : Type := mkListenerUpdate {
  InboundListenerCfg : option InboundListenerConfig
}.

Module ClusterUpdate.
Record t : Type := mk {
  ClusterName : string;
  SecurityCfg : option SecurityConfig
}.
End ClusterUpdate.

(** Modelled from the spec: [resource.Name], the parsed form of a resource
    name.  A name either specifies no server ([Authority] empty) and targets
    the default server, or carries the name of an authority of the bootstrap
    table.  [ParseName] is modelled on names written without an authority
    part, such as the empty name that [SetMetadata] passes. *)
Record Name : Type := mkName {
  Authority : string;
  ID : string
}.

Definition ParseName (name : string) : Name :=
  {| Authority := ""; ID := name |}.

End resource.

(** The argument [u any] of [updateValidator]: a value together with its
    dynamic type.  The type switch distinguishes the two value types
    [resource.ListenerUpdate] and [resource.ClusterUpdate]; a value of any other
    dynamic type is represented by the name of that type. *)
Inductive any : Type :=
  | ListenerUpdateValue (update : resource.ListenerUpdate)
  | ClusterUpdateValue (update : resource.ClusterUpdate.t)
  | OtherValue (dynamicType : string).

(* ===================================================================== *)
(** * Package [client] *)
(* ===================================================================== *)

Module client.

(** ** State *)

(** The address of an [authority] object; [*authority] values are shared, so
    authorities live in a heap and the registries hold addresses. *)
Definition addr : Type := nat.

(** Modelled from the spec: the [authority] type is not among the source
    files.  Per the spec it is keyed by its server identity, is reference
    counted by the watches that use it, and has a flag for the closed state;
    its watch bookkeeping and transport are internal to it. *)
Record authority : Type := mkAuthority {
  serverConfig : string;
  refCount : nat;
  closed : bool
}.

(** What a call leaves behind besides the new state: mutex operations on
    [authorityMu], closings of authorities and lines written to the logger. *)
Inductive event : Type :=
  | EvLock
  | EvUnlock
  | EvClose (a : addr)
  | EvInfof (format : string) (args : list string).

#[global] Instance event_eq_dec : EqDecision event.
Proof. solve_decision. Defined.

(** The part of the state that lives outside the [clientImpl] struct. *)
Record store : Type := mkStore {
  heap : gmap addr authority;
  trace : list event
}.

(** Modelled from the spec: [grpcsync.Event], the one-shot done flag. *)
Record Event : Type := mkEvent { fired : bool }.

Definition NewEvent : Event := {| fired := false |}.
Definition HasFired (e : Event) : bool := fired e.
Definition Fire (e : Event) : Event := {| fired := true |}.

(** Modelled from the spec: [cache.TimeoutCache].  An entry holds the cached
    value and the callback to run on expiry; the timer itself is real time
    and is not modelled.  The callbacks the client installs act on
    authorities, hence on the store. *)
Record cacheEntry : Type := mkCacheEntry {
  item : addr;
  callback : store -> store
}.

Record TimeoutCache : Type := mkTimeoutCache {
  timeout : config_center.Duration;
  cache : gmap string cacheEntry
}.

Definition NewTimeoutCache (timeout : config_center.Duration) : TimeoutCache :=
  {| timeout := timeout; cache := ∅ |}.

(** [clientImpl].  The mutex [authorityMu] and the logger have no content of
    their own: their use shows in the [trace]. *)
Record clientImpl : Type := mkClientImpl {
  done : Event;
  config : bootstrap.Config;
  authorities : gmap string addr;
  idleAuthorities : TimeoutCache;
  watchExpiryTimeout : config_center.Duration
}.

Record world : Type := mkWorld {
  this : clientImpl;
  mem : store
}.

(** ** A state monad over [world] *)

Definition M (A : Type) : Type := world -> A * world.

#[global] Instance M_ret : MRet M := fun A x w => (x, w).
#[global] Instance M_bind : MBind M :=
  fun A B f m w => let '(x, w') := m w in f x w'.

Definition gets {A : Type} (f : world -> A) : M A := fun w => (f w, w).
Definition modify (f : world -> world) : M unit := fun w => (tt, f w).

Definition set_done (e : Event) (w : world) : world :=
  let c := this w in
  {| this := {| done := e; config := config c; authorities := authorities c;
                idleAuthorities := idleAuthorities c;
                watchExpiryTimeout := watchExpiryTimeout c |};
     mem := mem w |}.

Definition set_authorities (m : gmap string addr) (w : world) : world :=
  let c := this w in
  {| this := {| done := done c; config := config c; authorities := m;
                idleAuthorities := idleAuthorities c;
                watchExpiryTimeout := watchExpiryTimeout c |};
     mem := mem w |}.

Definition set_idle (m : gmap string cacheEntry) (w : world) : world :=
  let c := this w in
  {| this := {| done := done c; config := config c;
                authorities := authorities c;
                idleAuthorities :=
                  {| timeout := timeout (idleAuthorities c); cache := m |};
                watchExpiryTimeout := watchExpiryTimeout c |};
     mem := mem w |}.

Definition on_store (f : store -> store) (w : world) : world :=
  {| this := this w; mem := f (mem w) |}.

Definition emit (e : event) (s : store) : store :=
  {| heap := heap s; trace := trace s ++ [e] |}.

(** [for _, x := range l { f(x) }] *)
Fixpoint forRange {A : Type} (l : list A) (f : A -> M unit) : M unit :=
  match l with
  | [] => mret tt
  | x :: rest => f x;; forRange rest f
  end.

(** ** Collaborators *)

Definition authorityMu_Lock : M unit := modify (on_store (emit EvLock)).
Definition authorityMu_Unlock : M unit := modify (on_store (emit EvUnlock)).

Definition logger_Infof (format : string) (args : list string) : M unit :=
  modify (on_store (emit (EvInfof format args))).

(** Modelled from the spec: [authority.close] permanently closes the
    authority. *)
Definition close_authority (a : authority) : authority :=
  {| serverConfig := serverConfig a; refCount := refCount a; closed := true |}.

Definition authority_close (a : addr) (s : store) : store :=
  emit (EvClose a) {| heap := alter close_authority a (heap s); trace := trace s |}.

(** Modelled from the spec: [TimeoutCache.Clear].  "[Clear(true)] fires every
    pending expiry callback synchronously before returning; [Clear(false)]
    discards entries without invoking callbacks." *)
Definition run_callbacks (entries : list (string * cacheEntry)) (s : store) : store :=
  foldl (fun s e => callback e.2 s) s entries.

Definition TimeoutCache_Clear (runCallback : bool) : M unit :=
  entries ← gets (fun w => map_to_list (cache (idleAuthorities (this w))));
  modify (set_idle ∅);;
  if runCallback then modify (on_store (run_callbacks entries)) else mret tt.

(** ** [newWithConfig] *)

Definition newWithConfig (config : bootstrap.Config)
    (watchExpiryTimeout idleAuthorityDeleteTimeout : config_center.Duration)
    (s : store) : world :=
  let c := {| done := NewEvent;
              config := config;
              watchExpiryTimeout := watchExpiryTimeout;
              authorities := ∅;
              idleAuthorities := NewTimeoutCache idleAuthorityDeleteTimeout |} in
  snd ((logger_Infof "Created ClientConn to xDS management server: %s"
                     [bootstrap.XDSServer config];;
        logger_Infof "Created" []) {| this := c; mem := s |}).

(** ** [Close] *)

(** The [range] over the registry visits its entries in an order Go leaves
    unspecified; the model takes the order of [map_to_list].  Closing an
    authority only sets its own flag, so the resulting heap does not depend on
    the order; only the order of the [EvClose] events in the trace does.  The
    registry itself is left as it is: [Close] does not empty it. *)

Definition Close : M unit :=
  gets (fun w => HasFired (done (this w))) ≫= fun hasFired : bool =>
  if hasFired then mret tt
  else
    modify (fun w => set_done (Fire (done (this w))) w);;
    authorityMu_Lock;;
    registry ← gets (fun w => map_to_list (authorities (this w)));
    forRange registry (fun ka => modify (on_store (authority_close ka.2)));;
    TimeoutCache_Clear true;;
    authorityMu_Unlock;;
    logger_Infof "Shutdown" [].

(** ** The update validator *)

Definition securityConfigUpdateValidator (c : clientImpl)
    (sc : option resource.SecurityConfig) : option fmt.error :=
  match sc with
  | None => None
  | Some sc =>
      let certs := bootstrap.CertProviderConfigs (config c) in
      if negb (String.eqb (resource.IdentityInstanceName sc) "")
         && negb (bool_decide (is_Some (certs !! resource.IdentityInstanceName sc)))
      then Some (fmt.Errorf
        "identitiy certificate provider instance name %q missing in bootstrap configuration"
        [resource.IdentityInstanceName sc])
      else if negb (String.eqb (resource.RootInstanceName sc) "")
         && negb (bool_decide (is_Some (certs !! resource.RootInstanceName sc)))
      then Some (fmt.Errorf
        "root certificate provider instance name %q missing in bootstrap configuration"
        [resource.RootInstanceName sc])
      else None
  end.

Definition filterChainUpdateValidator (c : clientImpl)
    (fc : option resource.FilterChain.t) : option fmt.error :=
  match fc with
  | None => None
  | Some fc => securityConfigUpdateValidator c (resource.FilterChain.SecurityCfg fc)
  end.

Definition updateValidator (c : clientImpl) (u : any) : option fmt.error :=
  match u with
  | ListenerUpdateValue update =>
      match resource.InboundListenerCfg update with
      | None => None
      | Some cfg =>
          match resource.FilterChains cfg with
          | None => None
          | Some chains => resource.Validate chains (filterChainUpdateValidator c)
          end
      end
  | ClusterUpdateValue update =>
      securityConfigUpdateValidator c (resource.ClusterUpdate.SecurityCfg update)
  | OtherValue _ => None
  end.

(** The same control flow, recording in order each lookup in
    [CertProviderConfigs] that the validator performs. *)
Definition securityConfigUpdateValidator_lookups (c : clientImpl)
    (sc : option resource.SecurityConfig) : option fmt.error * list string :=
  match sc with
  | None => (None, [])
  | Some sc =>
      let certs := bootstrap.CertProviderConfigs (config c) in
      let identity := resource.IdentityInstanceName sc in
      let root := resource.RootInstanceName sc in
      let l1 := if String.eqb identity "" then [] else [identity] in
      if negb (String.eqb identity "")
         && negb (bool_decide (is_Some (certs !! identity)))
      then (Some (fmt.Errorf
        "identitiy certificate provider instance name %q missing in bootstrap configuration"
        [identity]), l1)
      else
        let l2 := if String.eqb root "" then l1 else l1 ++ [root] in
        if negb (String.eqb root "")
           && negb (bool_decide (is_Some (certs !! root)))
        then (Some (fmt.Errorf
          "root certificate provider instance name %q missing in bootstrap configuration"
          [root]), l2)
        else (None, l2)
  end.

(** A name that is set and is not a key of the provider table. *)
Definition missing (c : clientImpl) (name : string) : Prop :=
  name ≠ "" ∧ bootstrap.CertProviderConfigs (config c) !! name = None.

(** A name that is unset or is a key of the provider table. *)
Definition provided (c : clientImpl) (name : string) : Prop :=
  name = "" ∨ is_Some (bootstrap.CertProviderConfigs (config c) !! name).

(** ** [findAuthority] and the release of an authority *)

(** Modelled from the spec: the "client closed" condition with which
    operations fail after [Close].  The spec does not fix its text. *)
Definition errClientClosed : fmt.error :=
  fmt.Errorf "xds: the client is closed" [].

Definition ref_authority (a : authority) : authority :=
  {| serverConfig := serverConfig a; refCount := S (refCount a);
     closed := closed a |}.

Definition unref_authority (a : authority) : authority :=
  {| serverConfig := serverConfig a; refCount := pred (refCount a);
     closed := closed a |}.

Definition on_heap (f : gmap addr authority -> gmap addr authority)
    (s : store) : store :=
  {| heap := f (heap s); trace := trace s |}.

(** Modelled from the spec: the server identity a resource name targets, "default
    server if the resource specifies none"; [None] when the name "maps to a
    server identity absent from bootstrap's authority list". *)
Definition serverIdentity (cfg : bootstrap.Config) (n : resource.Name)
    : option string :=
  if String.eqb (resource.Authority n) "" then Some (bootstrap.XDSServer cfg)
  else bootstrap.Authorities cfg !! resource.Authority n.

(** Modelled from the spec: [findAuthority] is not among the source files.
    Under the registry lock it checks the done flag and fails if the client
    is closed; otherwise it resolves the server identity, and returns the
    authority of the active registry, or revives the one of the idle cache
    (a hit removes the entry from the cache), or constructs a new one.  The
    release function it also returns is [unrefAuthority] at the authority. *)
Definition findAuthority (n : resource.Name) : M (addr + fmt.error) :=
  authorityMu_Lock;;
  (gets (fun w => HasFired (done (this w))) ≫= fun hasFired : bool =>
   if hasFired then mret (inr errClientClosed)
   else
     gets (fun w => serverIdentity (config (this w)) n) ≫= fun id : option string =>
     match id with
     | None =>
         mret (inr (fmt.Errorf "xds: failed to find authority %q"
                               [resource.Authority n]))
     | Some key =>
         gets (fun w => authorities (this w) !! key) ≫= fun active : option addr =>
         match active with
         | Some a =>
             modify (on_store (on_heap (alter ref_authority a)));;
             mret (inl a)
         | None =>
             gets (fun w => cache (idleAuthorities (this w)) !! key)
               ≫= fun idle : option cacheEntry =>
             match idle with
             | Some e =>
                 modify (fun w =>
                   set_idle (delete key (cache (idleAuthorities (this w)))) w);;
                 modify (fun w =>
                   set_authorities (<[key := item e]> (authorities (this w))) w);;
                 modify (on_store (on_heap (alter ref_authority (item e))));;
                 mret (inl (item e))
             | None =>
                 gets (fun w => fresh (dom (heap (mem w)))) ≫= fun a : addr =>
                 modify (on_store (on_heap
                   <[a := {| serverConfig := key; refCount := 1;
                             closed := false |}]>));;
                 modify (fun w =>
                   set_authorities (<[key := a]> (authorities (this w))) w);;
                 mret (inl a)
             end
         end
     end) ≫= fun r : addr + fmt.error =>
  authorityMu_Unlock;;
  mret r.

(** Modelled from the spec: the release of an authority "decrements a
    reference count on the Authority; at zero, remove it from the active
    registry and insert it into the idle cache with the idle-expiry duration
    and an eviction callback that permanently closes the Authority". *)
Definition unrefAuthority (a : addr) : M unit :=
  authorityMu_Lock;;
  modify (on_store (on_heap (alter unref_authority a)));;
  (gets (fun w => heap (mem w) !! a) ≫= fun au : option authority =>
   match au with
   | Some au =>
       if decide (refCount au = 0) then
         modify (fun w =>
           set_authorities (delete (serverConfig au) (authorities (this w))) w);;
         modify (fun w =>
           set_idle (<[serverConfig au :=
                         {| item := a; callback := authority_close a |}]>
                       (cache (idleAuthorities (this w)))) w)
       else mret tt
   | None => mret tt
   end);;
  authorityMu_Unlock.

(** Every entry of the idle cache carries the callback that the release of
    its authority installs. *)
Definition closes_item (e : cacheEntry) : Prop :=
  ∀ s, callback e s = authority_close (item e) s.

Definition idle_wf (c : clientImpl) : Prop :=
  ∀ k e, cache (idleAuthorities c) !! k = Some e → closes_item e.

(** An authority is closed in a store. *)
Definition is_closed (s : store) (a : addr) : Prop :=
  ∀ au, heap s !! a = Some au → closed au = true.

(** Closing the authorities of a list, one after the other. *)
Definition close_list (l : list addr) (s : store) : store :=
  foldl (fun s a => authority_close a s) s l.

(** The addresses held by the active registry and by the idle cache, in the
    order in which [Close] visits them. *)
Definition registered (c : clientImpl) : list addr :=
  (map_to_list (authorities c)).*2.

Definition idling (c : clientImpl) : list addr :=
  item <$> (map_to_list (cache (idleAuthorities c))).*2.

(** ** [SetMetadata] *)

Section SetMetadata.

(** [_struct.Struct], the protobuf message passed through to the
    authority, and the two methods of [authority] that [SetMetadata]
    calls.  They are not among the source files and the spec gives only
    their signatures; the watch callback passed by [SetMetadata] ignores
    its arguments. *)
Variable Struct : Type.
Variable authority_SetMetadata :
  addr -> option Struct -> store -> option fmt.error * store.
Variable authority_watchEndpoints : addr -> string -> store -> store.

Definition SetMetadata (m : option Struct) : M (option fmt.error) :=
  findAuthority (resource.ParseName "") ≫= fun r : addr + fmt.error =>
  match r with
  | inr err => mret (Some err)
  | inl a =>
      (fun w => let '(err, s) := authority_SetMetadata a m (mem w) in
                (err, {| this := this w; mem := s |}))
        ≫= fun err : option fmt.error =>
      match err with
      | Some err => mret (Some err)
      | None =>
          modify (on_store (authority_watchEndpoints a ""));;
          mret None
      end
  end.

End SetMetadata.

End client.

(* ===================================================================== *)
(** * Package [metadata] (gRPC), as far as the codec uses it *)
(* ===================================================================== *)

Module metadata.

(** [type MD map[string][]string]; the nil map is [None]. *)
Definition MD : Type := option (gmap string (list string)).

(** [strings.ToLower] on ASCII text, the case of every key passed here. *)
Definition lower (ch : ascii) : ascii :=
  let n := nat_of_ascii ch in
  if (65 <=? n)%nat && (n <=? 90)%nat then ascii_of_nat (n + 32) else ch.

Fixpoint ToLower (s : string) : string :=
  match s with
  | EmptyString => EmptyString
  | String ch rest => String (lower ch) (ToLower rest)
  end.

(** [Pairs(k, v)], the two-argument call of the variadic [Pairs]: a fresh
    map holding [v] under the lower-cased key. *)
Definition Pairs (k v : string) : MD := Some {[ ToLower k := [v] ]}.

(** [md.Get(k)]: the values under the lower-cased key; reading a nil map or
    an absent key gives the nil slice. *)
Definition Get (md : MD) (k : string) : list string :=
  match md with
  | None => []
  | Some m => default [] (m !! ToLower k)
  end.

(** [md.Len()]. *)
Definition Len (md : MD) : nat :=
  match md with
  | None => 0
  | Some m => size m
  end.

End metadata.

(* ===================================================================== *)
(** * Package [orca] *)
(* ===================================================================== *)

Module orca.

Definition mdKey : string := "X-Endpoint-Load-Metrics-Bin".

Section Codec.

(** The protobuf message [orcapb.OrcaLoadReport] and the two functions of
    the protobuf library.  [Marshal] returns a slice (nil is [None]) and an
    error (nil is [None]); [Unmarshal] resets the message it fills, so its
    result depends on the bytes alone. *)
Variable OrcaLoadReport : Type.
Variable protoError : Type.
Variable Marshal : OrcaLoadReport -> option (list byte) * option protoError.
Variable Unmarshal : list byte -> OrcaLoadReport + protoError.

(** A line written by [logger.Warnf(format, err)]. *)
Inductive logLine : Type :=
  | Warnf (format : string) (err : protoError).

(** A result together with the lines logged while computing it. *)
Definition Logged (A : Type) : Type := A * list logLine.

Definition toBytes (r : option OrcaLoadReport) : Logged (option (list byte)) :=
  match r with
  | None => (None, [])
  | Some r =>
      match Marshal r with
      | (_, Some err) =>
          (None, [Warnf "orca: failed to marshal load report: %v" err])
      | (b, None) => (b, [])
      end
  end.

Definition ToMetadata (r : option OrcaLoadReport) : Logged metadata.MD :=
  let '(b, log) := toBytes r in
  match b with
  | None => (None, log)
  | Some b => (metadata.Pairs mdKey (string_of_list_byte b), log)
  end.

Definition fromBytes (b : list byte) : Logged (option OrcaLoadReport) :=
  match Unmarshal b with
  | inr err => (None, [Warnf "orca: failed to unmarshal load report: %v" err])
  | inl ret => (Some ret, [])
  end.

Definition FromMetadata (md : metadata.MD) : Logged (option OrcaLoadReport) :=
  match metadata.Get md mdKey with
  | [] => (None, [])
  | v :: _ => fromBytes (list_byte_of_string v)
  end.

End Codec.

Arguments Warnf {protoError} format err.
Arguments toBytes {OrcaLoadReport protoError} Marshal r.
Arguments ToMetadata {OrcaLoadReport protoError} Marshal r.
Arguments fromBytes {OrcaLoadReport protoError} Unmarshal b.
Arguments FromMetadata {OrcaLoadReport protoError} Unmarshal md.

End orca.

(* ===================================================================== *)
(** * Concrete instances used to exercise the theorems *)
(* ===================================================================== *)

Module Instances.

(** A quoting function for text made of letters and digits, on which
    [strconv.Quote] only adds the surrounding quotation marks. *)
Definition QuotePlain (s : string) : string :=
  String "034" (s +:+ String "034" EmptyString).

(** A one-byte codec: a report is a utilisation figure; figures below 256
    are encoded in one byte, and only one-byte inputs decode. *)
Definition Marshal1 (r : N) : option (list byte) * option string :=
  match Byte.of_N r with
  | Some b => (Some [b], None)
  | None => (Some [], Some "figure out of range")
  end.

Definition Unmarshal1 (b : list byte) : N + string :=
  match b with
  | [x] => inl (Byte.to_N x)
  | _ => inr "malformed report"
  end.

Definition certs : gmap string bootstrap.BuildableConfig :=
  {[ "bar" := {| bootstrap.pluginName := "file_watcher";
                 bootstrap.pluginConfig := [] |} ]}.

Definition cfg : bootstrap.Config :=
  {| bootstrap.XDSServer := "xds.example.org:443";
     bootstrap.Authorities := {[ "edge" := "edge.example.org:443" ]};
     bootstrap.CertProviderConfigs := certs |}.

Definition emptyStore : client.store :=
  {| client.heap := ∅; client.trace := [] |}.

(** A freshly constructed client. *)
Definition w0 : client.world := client.newWithConfig cfg 15%Z 3600%Z emptyStore.

(** The same client after a watch on the default server... *)
Definition w1 : client.world :=
  (client.findAuthority (resource.ParseName "listener") w0).2.

(** ... and after the release of that watch, which leaves the authority in
    the idle cache. *)
Definition w2 : client.world := (client.unrefAuthority 0 w1).2.

(** A watch on a resource of the authority [edge] then makes a second
    authority active. *)
Definition w3 : client.world :=
  (client.findAuthority
     {| resource.Authority := "edge"; resource.ID := "cluster" |} w2).2.

End Instances.

Module MoreInstances.

(** Authority methods for exercising [SetMetadata]: setting nil metadata
    fails, setting any other value succeeds, and a watch takes a reference on
    the authority. *)
Definition setMetadata (a : client.addr) (m : option string) (s : client.store)
    : option fmt.error * client.store :=
  match m with
  | None => (Some (fmt.Errorf "authority: metadata is nil" []), s)
  | Some _ => (None, s)
  end.

Definition watchEndpoints (a : client.addr) (resourceName : string)
    (s : client.store) : client.store :=
  client.on_heap (alter client.ref_authority a) s.

(** A client with the provider tables [bar] and [bar], [baz]. *)
Definition withCerts (certs : gmap string bootstrap.BuildableConfig)
    : client.clientImpl :=
  {| client.done := client.NewEvent;
     client.config := {| bootstrap.XDSServer := "xds.example.org:443";
                         bootstrap.Authorities := ∅;
                         bootstrap.CertProviderConfigs := certs |};
     client.authorities := ∅;
     client.idleAuthorities := client.NewTimeoutCache 0%Z;
     client.watchExpiryTimeout := 0%Z |}.

Definition plugin : bootstrap.BuildableConfig :=
  {| bootstrap.pluginName := "file_watcher"; bootstrap.pluginConfig := [] |}.

Definition onlyBar : client.clientImpl := withCerts {[ "bar" := plugin ]}.

Definition barAndBaz : client.clientImpl :=
  withCerts (<[ "baz" := plugin ]> {[ "bar" := plugin ]}).

End MoreInstances.

(* ===================================================================== *)
(** * Theorems: functional options *)
(* ===================================================================== *)

(** C10.  [WithGroup] sets the [Group] field to its argument and leaves
    [Timeout] as it was; [WithTimeout] sets the [Timeout] field to its argument
    and leaves [Group] as it was. *)
Theorem options_frame :
  ∀ (opt : config_center.Options) (group : string) (time : config_center.Duration),
    config_center.Group (config_center.WithGroup group opt) = group
    ∧ config_center.Timeout (config_center.WithGroup group opt)
      = config_center.Timeout opt
    ∧ config_center.Timeout (config_center.WithTimeout time opt) = time
    ∧ config_center.Group (config_center.WithTimeout time opt)
      = config_center.Group opt.
Proof. intros [g t] group time. repeat split. Qed.

(* ===================================================================== *)
(** * Theorems: the update validator *)
(* ===================================================================== *)

Section ValidatorFacts.

Import resource.
Variable c : client.clientImpl.

(** The two tests of the validator, as propositions. *)
Lemma test_missing (name : string) :
  negb (String.eqb name "") && negb (bool_decide (is_Some (bootstrap.CertProviderConfigs (client.config c) !! name))) = true
  ↔ client.missing c name.
Proof.
  unfold client.missing.
  destruct (String.eqb_spec name "") as [->|Hne]; simpl.
  - split; [discriminate | intros [[] _]; reflexivity].
  - rewrite negb_true_iff, bool_decide_eq_false, <- eq_None_not_Some.
    tauto.
Qed.

Lemma test_provided (name : string) :
  negb (String.eqb name "") && negb (bool_decide (is_Some (bootstrap.CertProviderConfigs (client.config c) !! name))) = false
  ↔ client.provided c name.
Proof.
  unfold client.provided.
  destruct (String.eqb_spec name "") as [->|Hne]; simpl.
  - split; [left; reflexivity | reflexivity].
  - rewrite negb_false_iff, bool_decide_eq_true. split; [tauto|].
    intros [?|?]; [contradiction | assumption].
Qed.

Lemma missing_not_provided (name : string) :
  client.missing c name → ¬ client.provided c name.
Proof.
  intros Hm Hp. apply test_missing in Hm. apply test_provided in Hp.
  congruence.
Qed.

Lemma provided_or_missing (name : string) :
  client.provided c name ∨ client.missing c name.
Proof.
  destruct (negb (String.eqb name "")
            && negb (bool_decide (is_Some (bootstrap.CertProviderConfigs (client.config c) !! name)))) eqn:E.
  - right. by apply test_missing.
  - left. by apply test_provided.
Qed.

(** The recorded lookups do not change the verdict. *)
Lemma lookups_verdict (sc : option SecurityConfig) :
  (client.securityConfigUpdateValidator_lookups c sc).1
  = client.securityConfigUpdateValidator c sc.
Proof.
  destruct sc as [sc|]; [|reflexivity].
  unfold client.securityConfigUpdateValidator_lookups,
    client.securityConfigUpdateValidator.
  cbv zeta.
  repeat match goal with |- context [if ?b then _ else _] => destruct b end;
    reflexivity.
Qed.

Lemma validator_identity_missing (sc : SecurityConfig) :
  client.missing c (IdentityInstanceName sc) →
  client.securityConfigUpdateValidator c (Some sc)
  = Some (fmt.Errorf
      "identitiy certificate provider instance name %q missing in bootstrap configuration"
      [IdentityInstanceName sc]).
Proof.
  intros Hm. apply test_missing in Hm.
  unfold client.securityConfigUpdateValidator. cbv zeta.
  by rewrite Hm.
Qed.

Lemma validator_root_missing (sc : SecurityConfig) :
  client.provided c (IdentityInstanceName sc) →
  client.missing c (RootInstanceName sc) →
  client.securityConfigUpdateValidator c (Some sc)
  = Some (fmt.Errorf
      "root certificate provider instance name %q missing in bootstrap configuration"
      [RootInstanceName sc]).
Proof.
  intros Hp Hm. apply test_provided in Hp. apply test_missing in Hm.
  unfold client.securityConfigUpdateValidator. cbv zeta.
  by rewrite Hp, Hm.
Qed.

Lemma validator_accepts (sc : SecurityConfig) :
  client.provided c (IdentityInstanceName sc) →
  client.provided c (RootInstanceName sc) →
  client.securityConfigUpdateValidator c (Some sc) = None.
Proof.
  intros Hi Hr. apply test_provided in Hi. apply test_provided in Hr.
  unfold client.securityConfigUpdateValidator. cbv zeta.
  by rewrite Hi, Hr.
Qed.

End ValidatorFacts.







(** C3, as stated, fails: with an empty provider table and the names [foo]
    and [bar], the identity check fails and the validator returns at once;
    the only lookup performed is that of [foo], the root name is never looked
    up. *)
Lemma root_check_skipped_after_identity_failure :
  let c := {| client.done := client.NewEvent;
              client.config := {| bootstrap.XDSServer := "";
                                  bootstrap.Authorities := ∅;
                                  bootstrap.CertProviderConfigs := ∅ |};
              client.authorities := ∅;
              client.idleAuthorities := client.NewTimeoutCache 0%Z;
              client.watchExpiryTimeout := 0%Z |} in
  let sc := {| resource.RootInstanceName := "bar";
               resource.IdentityInstanceName := "foo" |} in
  client.missing c "foo" ∧ client.missing c "bar"
  ∧ client.securityConfigUpdateValidator_lookups c (Some sc)
    = (Some (fmt.Errorf
         "identitiy certificate provider instance name %q missing in bootstrap configuration"
         ["foo"]), ["foo"])
  ∧ ¬ ("bar" ∈ (client.securityConfigUpdateValidator_lookups c (Some sc)).2).
Proof.
  intros c sc. repeat split; try discriminate.
  intros H. vm_compute in H. apply list_elem_of_In in H.
  destruct H as [H|[]]. discriminate.
Qed.

(** C3, amended.  Validation of a security config is fail-fast.  When the
    identity check fails, the validator returns the identity error having
    looked up the identity name only.  When the identity name is unset or
    present, the root name, if set, is looked up.  Whenever the identity name
    or the root name is missing from the table, the validator returns an error,
    so the config is not accepted. *)
Theorem validation_fail_fast_surfaces_missing :
  ∀ (c : client.clientImpl) (sc : resource.SecurityConfig),
    (client.missing c (resource.IdentityInstanceName sc) →
       client.securityConfigUpdateValidator_lookups c (Some sc)
       = (Some (fmt.Errorf
            "identitiy certificate provider instance name %q missing in bootstrap configuration"
            [resource.IdentityInstanceName sc]),
          [resource.IdentityInstanceName sc]))
    ∧ (client.provided c (resource.IdentityInstanceName sc) →
       resource.RootInstanceName sc ≠ "" →
       resource.RootInstanceName sc
         ∈ (client.securityConfigUpdateValidator_lookups c (Some sc)).2)
    ∧ (client.missing c (resource.IdentityInstanceName sc)
       ∨ client.missing c (resource.RootInstanceName sc) →
       is_Some (client.securityConfigUpdateValidator c (Some sc))).
Proof.
  intros c sc. split; [|split].
  - intros Hm. pose proof Hm as [Hne _]. apply test_missing in Hm.
    unfold client.securityConfigUpdateValidator_lookups. cbv zeta.
    rewrite Hm. apply String.eqb_neq in Hne. by rewrite Hne.
  - intros Hp Hne. apply test_provided in Hp.
    unfold client.securityConfigUpdateValidator_lookups. cbv zeta.
    rewrite Hp. apply String.eqb_neq in Hne. rewrite Hne.
    assert (Hin : resource.RootInstanceName sc
                  ∈ ((if String.eqb (resource.IdentityInstanceName sc) ""
                      then [] else [resource.IdentityInstanceName sc])
                     ++ [resource.RootInstanceName sc])%list).
    { apply elem_of_app. right. apply list_elem_of_singleton. reflexivity. }
    by destruct (negb false && _).
  - intros [Hi|Hr].
    + rewrite (validator_identity_missing c sc Hi). eauto.
    + destruct (provided_or_missing c (resource.IdentityInstanceName sc))
        as [Hp|Hm].
      * rewrite (validator_root_missing c sc Hp Hr). eauto.
      * rewrite (validator_identity_missing c sc Hm). eauto.
Qed.

(** The amended C3 at a client whose table has the key [bar] only: the
    identity [foo] fails without a root lookup, and with the identity [bar]
    the missing root [baz] is looked up and reported. *)
Lemma validation_fail_fast_surfaces_missing_witness :
  let c := client.this Instances.w0 in
  let sc1 := {| resource.RootInstanceName := "baz";
                resource.IdentityInstanceName := "foo" |} in
  let sc2 := {| resource.RootInstanceName := "baz";
                resource.IdentityInstanceName := "bar" |} in
  (client.securityConfigUpdateValidator_lookups c (Some sc1)).2 = ["foo"]
  ∧ "baz" ∈ (client.securityConfigUpdateValidator_lookups c (Some sc2)).2
  ∧ is_Some (client.securityConfigUpdateValidator c (Some sc2)).
Proof.
  intros c sc1 sc2.
  destruct (validation_fail_fast_surfaces_missing c sc1) as (H1 & _ & _).
  destruct (validation_fail_fast_surfaces_missing c sc2) as (_ & H2 & H3).
  split; [|split].
  - rewrite H1; [reflexivity|]. split; [discriminate | vm_compute; reflexivity].
  - apply H2; [|discriminate]. right. vm_compute. eauto.
  - apply H3. right. split; [discriminate | vm_compute; reflexivity].
Defined.

(** C8.  The update validator returns no error for a listener update without
    an inbound listener config or without a filter-chain set in it, for a
    cluster update without a security config, and for a value of any other
    type. *)
Theorem updateValidator_passes :
  ∀ (c : client.clientImpl),
    client.updateValidator c
      (ListenerUpdateValue {| resource.InboundListenerCfg := None |}) = None
    ∧ client.updateValidator c
        (ListenerUpdateValue
           {| resource.InboundListenerCfg :=
                Some {| resource.FilterChains := None |} |}) = None
    ∧ (∀ clusterName,
         client.updateValidator c
           (ClusterUpdateValue
              {| resource.ClusterUpdate.ClusterName := clusterName;
                 resource.ClusterUpdate.SecurityCfg := None |}) = None)
    ∧ (∀ dynamicType, client.updateValidator c (OtherValue dynamicType) = None)
    ∧ client.filterChainUpdateValidator c None = None.
Proof. intros c. repeat split. Qed.

(* ===================================================================== *)
(** * Theorems: shutdown of the client *)
(* ===================================================================== *)

Section CloseFacts.

Import client.

Ltac run_M :=
  cbv beta iota delta [mbind M_bind mret M_ret gets modify
    authorityMu_Lock authorityMu_Unlock logger_Infof].

Lemma forRange_close (l : list (string * addr)) (w : world) :
  forRange l (fun ka => modify (on_store (authority_close ka.2))) w
  = (tt, on_store (close_list (l.*2)) w).
Proof.
  revert w. induction l as [|[k a] l IH]; intros w.
  - by destruct w.
  - cbn [forRange]. run_M. rewrite IH. reflexivity.
Qed.

Lemma run_callbacks_close (entries : list (string * cacheEntry)) (s : store) :
  (∀ ke, ke ∈ entries → closes_item ke.2) →
  run_callbacks entries s = close_list (item <$> entries.*2) s.
Proof.
  revert s. induction entries as [|[k e] entries IH]; intros s Hwf.
  - reflexivity.
  - unfold run_callbacks, close_list. cbn [foldl fmap list_fmap snd].
    rewrite (Hwf (k, e)) by apply list_elem_of_here. cbn [snd].
    apply IH. intros ke Hin. apply Hwf. by apply list_elem_of_further.
Qed.

Lemma close_list_app (l1 l2 : list addr) (s : store) :
  close_list (l1 ++ l2) s = close_list l2 (close_list l1 s).
Proof. apply foldl_app. Qed.

Lemma close_list_trace (l : list addr) (s : store) :
  trace (close_list l s) = trace s ++ (EvClose <$> l).
Proof.
  revert s. induction l as [|a l IH]; intros s; cbn.
  - by rewrite app_nil_r.
  - unfold close_list in IH. rewrite IH. cbn. by rewrite <- app_assoc.
Qed.

Lemma close_authority_idemp (o : option authority) :
  close_authority <$> (close_authority <$> o) = close_authority <$> o.
Proof. by destruct o. Qed.

Lemma close_list_heap (l : list addr) (s : store) (a : addr) :
  heap (close_list l s) !! a
  = if decide (a ∈ l) then close_authority <$> heap s !! a else heap s !! a.
Proof.
  revert s. induction l as [|x l IH]; intros s.
  - cbn. case_decide as H; [|done]. by apply elem_of_nil in H.
  - unfold close_list in *. cbn [foldl]. rewrite IH. cbn [authority_close emit heap].
    rewrite lookup_alter.
    destruct (decide (a ∈ x :: l)) as [Hxl|Hxl], (decide (a ∈ l)) as [Hl|Hl],
      (decide (x = a)) as [->|Hne];
      try reflexivity; try apply close_authority_idemp.
    + apply elem_of_cons in Hxl as [->|?]; [by destruct Hne | by destruct Hl].
    + destruct Hxl. by apply list_elem_of_further.
    + destruct Hxl. by apply list_elem_of_further.
    + destruct Hxl. apply list_elem_of_here.
Qed.

Lemma registered_elem (c : clientImpl) (k : string) (a : addr) :
  authorities c !! k = Some a → a ∈ registered c.
Proof.
  intros H. apply list_elem_of_fmap. exists (k, a). split; [done|].
  by apply elem_of_map_to_list.
Qed.

Lemma idling_elem (c : clientImpl) (k : string) (e : cacheEntry) :
  cache (idleAuthorities c) !! k = Some e → item e ∈ idling c.
Proof.
  intros H. apply list_elem_of_fmap. exists e. split; [done|].
  apply list_elem_of_fmap. exists (k, e). split; [done|].
  by apply elem_of_map_to_list.
Qed.

(** A call of [Close] on a client whose done flag has fired returns at
    once. *)
Lemma Close_fired (w : world) :
  HasFired (done (this w)) = true → Close w = (tt, w).
Proof. intros H. unfold Close. run_M. by rewrite H. Qed.

(** The first call of [Close], step by step. *)
Lemma Close_first (w : world) :
  HasFired (done (this w)) = false →
  Close w
  = (tt,
     {| this := {| done := {| fired := true |};
                   config := config (this w);
                   authorities := authorities (this w);
                   idleAuthorities :=
                     {| timeout := timeout (idleAuthorities (this w));
                        cache := ∅ |};
                   watchExpiryTimeout := watchExpiryTimeout (this w) |};
        mem := emit (EvInfof "Shutdown" [])
                (emit EvUnlock
                  (run_callbacks
                     (map_to_list (cache (idleAuthorities (this w))))
                     (close_list (registered (this w))
                        (emit EvLock (mem w))))) |}).
Proof.
  intros H. unfold Close. run_M. rewrite H.
  cbv beta iota delta [modify].
  pose proof forRange_close as HF. unfold modify in HF. rewrite HF.
  unfold TimeoutCache_Clear. run_M. reflexivity.
Qed.

Lemma Close_done (w : world) :
  HasFired (done (this (Close w).2)) = true.
Proof.
  destruct (HasFired (done (this w))) eqn:H.
  - by rewrite Close_fired.
  - by rewrite Close_first.
Qed.

(** [findAuthority] on a closed client. *)
Lemma findAuthority_fired (n : resource.Name) (w : world) :
  HasFired (done (this w)) = true →
  findAuthority n w
  = (inr errClientClosed, on_store (emit EvUnlock) (on_store (emit EvLock) w)).
Proof. intros H. unfold findAuthority. run_M. cbn. by rewrite H. Qed.

(** The callbacks of the idle cache are those installed by the release of
    an authority in every state the operations of the client produce. *)
Lemma idle_wf_newWithConfig (cfg : bootstrap.Config)
    (t1 t2 : config_center.Duration) (s : store) :
  idle_wf (this (newWithConfig cfg t1 t2 s)).
Proof.
  intros k e H.
  change (cache (idleAuthorities (this (newWithConfig cfg t1 t2 s))))
    with (∅ : gmap string cacheEntry) in H.
  by apply lookup_empty_Some in H.
Qed.

Lemma idle_wf_delete (c : clientImpl) (key : string) (w : world) :
  this w = c → idle_wf c →
  idle_wf (this (set_idle (delete key (cache (idleAuthorities c))) w)).
Proof.
  intros <- Hwf k e H. cbn in H.
  apply lookup_delete_Some in H as [_ H]. by apply (Hwf k e).
Qed.

Lemma idle_wf_findAuthority (n : resource.Name) (w : world) :
  idle_wf (this w) → idle_wf (this (findAuthority n w).2).
Proof.
  intros Hwf. unfold findAuthority. run_M. cbn [on_store this].
  destruct (HasFired _); [exact Hwf|].
  destruct (serverIdentity _ _) as [key|]; [|exact Hwf].
  destruct (authorities _ !! key); [exact Hwf|].
  destruct (cache _ !! key); [|exact Hwf].
  intros k e H.
  cbn [snd on_store set_authorities set_idle this idleAuthorities cache] in H.
  apply lookup_delete_Some in H as [_ H]. by apply (Hwf k e).
Qed.

Lemma idle_wf_unrefAuthority (a : addr) (w : world) :
  idle_wf (this w) → idle_wf (this (unrefAuthority a w).2).
Proof.
  intros Hwf. unfold unrefAuthority. run_M. cbn [on_store this mem heap on_heap].
  destruct (_ !! a) as [au|]; [|exact Hwf].
  destruct (decide (refCount au = 0)) as [Hz|Hz]; [|exact Hwf].
  intros k e H.
  cbn [snd on_store set_authorities set_idle this idleAuthorities cache] in H.
  apply lookup_insert_Some in H as [[_ <-]|[_ H]].
  - intros s. reflexivity.
  - by apply (Hwf k e).
Qed.

Lemma idle_wf_Close (w : world) :
  idle_wf (this w) → idle_wf (this (Close w).2).
Proof.
  intros Hwf. destruct (HasFired (done (this w))) eqn:H.
  - by rewrite Close_fired.
  - rewrite Close_first by done. intros k e He. cbn [snd this idleAuthorities cache] in He.
    by apply lookup_empty_Some in He.
Qed.

End CloseFacts.

(** C4.  [Close] is idempotent.  After a call of [Close] the done flag has
    fired, and a second call returns at once with the state it found: the
    heap of authorities and the trace of lock operations, closings and log
    lines are those left by the first call. *)
Theorem Close_idempotent :
  ∀ (w : client.world),
    let w1 := (client.Close w).2 in
    client.HasFired (client.done (client.this w1)) = true
    ∧ client.Close w1 = (tt, w1)
    ∧ client.trace (client.mem (client.Close w1).2) = client.trace (client.mem w1)
    ∧ client.heap (client.mem (client.Close w1).2) = client.heap (client.mem w1).
Proof.
  intros w w1. pose proof (Close_done w) as Hd. fold w1 in Hd.
  rewrite (Close_fired w1 Hd). repeat split. exact Hd.
Qed.

(** C5.  On a client whose done flag has not fired, and whose idle cache
    holds entries with the callback that the release of an authority
    installs, [Close] sets the done flag, and between locking and unlocking
    [authorityMu] closes every authority of the active registry and then, by
    clearing the idle cache with the callbacks run, every authority of the
    idle cache; the cache is left empty, the shutdown is logged after the
    unlock, and no other authority is touched. *)
Theorem Close_first_call :
  ∀ (w : client.world),
    client.HasFired (client.done (client.this w)) = false →
    client.idle_wf (client.this w) →
    let w' := (client.Close w).2 in
    let visited :=
      client.registered (client.this w) ++ client.idling (client.this w) in
    client.HasFired (client.done (client.this w')) = true
    ∧ client.cache (client.idleAuthorities (client.this w')) = ∅
    ∧ client.trace (client.mem w')
      = client.trace (client.mem w) ++ [client.EvLock]
        ++ (client.EvClose <$> visited)
        ++ [client.EvUnlock; client.EvInfof "Shutdown" []]
    ∧ (∀ k a, client.authorities (client.this w) !! k = Some a →
         client.heap (client.mem w') !! a
         = client.close_authority <$> client.heap (client.mem w) !! a)
    ∧ (∀ k e, client.cache (client.idleAuthorities (client.this w)) !! k = Some e →
         client.heap (client.mem w') !! client.item e
         = client.close_authority <$> client.heap (client.mem w) !! client.item e)
    ∧ (∀ a, a ∉ visited →
         client.heap (client.mem w') !! a = client.heap (client.mem w) !! a).
Proof.
  intros w Hf Hwf w' visited.
  assert (Hmem : client.mem w'
    = client.emit (client.EvInfof "Shutdown" [])
        (client.emit client.EvUnlock
           (client.close_list visited (client.emit client.EvLock (client.mem w))))).
  { unfold w'. rewrite (Close_first w Hf). cbn [snd client.mem].
    rewrite run_callbacks_close.
    - unfold visited. rewrite close_list_app. reflexivity.
    - intros [k e] Hin. apply elem_of_map_to_list in Hin. exact (Hwf k e Hin). }
  assert (Hheap : ∀ a, client.heap (client.mem w') !! a
    = if decide (a ∈ visited)
      then client.close_authority <$> client.heap (client.mem w) !! a
      else client.heap (client.mem w) !! a).
  { intros a. rewrite Hmem. cbn [client.emit client.heap].
    rewrite close_list_heap. reflexivity. }
  split; [apply Close_done|].
  split; [unfold w'; by rewrite (Close_first w Hf)|].
  split.
  { rewrite Hmem. cbn [client.emit client.trace].
    rewrite close_list_trace. cbn [client.emit client.trace].
    rewrite <- !app_assoc. reflexivity. }
  split; [|split].
  - intros k a Hk. rewrite Hheap, decide_True; [done|].
    apply elem_of_app. left. by eapply registered_elem.
  - intros k e Hk. rewrite Hheap, decide_True; [done|].
    apply elem_of_app. right. by eapply idling_elem.
  - intros a Hn. by rewrite Hheap, decide_False.
Qed.

(** C5 on a client with one active authority (address 1) and one idle
    authority (address 0): both are closed between the lock and the unlock. *)
Lemma Close_first_call_witness :
  let w' := (client.Close Instances.w3).2 in
  client.closed <$> client.heap (client.mem w') !! 1 = Some true
  ∧ client.closed <$> client.heap (client.mem w') !! 0 = Some true
  ∧ client.trace (client.mem w')
    = client.trace (client.mem Instances.w3)
      ++ [client.EvLock; client.EvClose 1; client.EvClose 0;
          client.EvUnlock; client.EvInfof "Shutdown" []].
Proof.
  intros w'.
  assert (Hidle : client.cache (client.idleAuthorities (client.this Instances.w3))
    = {[ "xds.example.org:443" :=
           {| client.item := 0; client.callback := client.authority_close 0 |} ]}).
  { vm_compute. reflexivity. }
  assert (Hreg : client.authorities (client.this Instances.w3)
    = {[ "edge.example.org:443" := 1 ]}).
  { vm_compute. reflexivity. }
  destruct (Close_first_call Instances.w3) as (_ & _ & Htr & Hact & Hidl & _).
  - reflexivity.
  - intros k e. rewrite Hidle. intros [_ <-]%lookup_singleton_Some s. reflexivity.
  - fold w' in Htr, Hact, Hidl. split; [|split].
    + etrans; [apply (f_equal (fmap client.closed)),
                 (Hact "edge.example.org:443" 1) | vm_compute; reflexivity].
      rewrite Hreg. apply lookup_singleton_eq.
    + etrans; [apply (f_equal (fmap client.closed)),
                 (Hidl "xds.example.org:443"
                    {| client.item := 0;
                       client.callback := client.authority_close 0 |})
              | vm_compute; reflexivity].
      rewrite Hidle. apply lookup_singleton_eq.
    + rewrite Htr. unfold client.registered, client.idling.
      rewrite Hreg, Hidle, !map_to_list_singleton. reflexivity.
Defined.

(** C9.  After [Close], [findAuthority] fails for every resource name with the
    client-closed error, and so does [SetMetadata] whatever the authority
    methods are; the call only takes and releases the lock, and the done flag
    stays fired, so later calls fail likewise. *)
Theorem closed_client_rejects :
  ∀ (Struct : Type)
    (authority_SetMetadata :
       client.addr → option Struct → client.store → option fmt.error * client.store)
    (authority_watchEndpoints : client.addr → string → client.store → client.store)
    (w : client.world) (n : resource.Name) (m : option Struct),
    let w1 := (client.Close w).2 in
    let w2 := client.on_store (client.emit client.EvUnlock)
                (client.on_store (client.emit client.EvLock) w1) in
    client.findAuthority n w1 = (inr client.errClientClosed, w2)
    ∧ client.SetMetadata Struct authority_SetMetadata authority_watchEndpoints m w1
      = (Some client.errClientClosed, w2)
    ∧ client.this w2 = client.this w1
    ∧ client.heap (client.mem w2) = client.heap (client.mem w1)
    ∧ client.HasFired (client.done (client.this w2)) = true.
Proof.
  intros Struct aSM aWE w n m w1 w2.
  pose proof (Close_done w) as Hd. fold w1 in Hd.
  split; [exact (findAuthority_fired n w1 Hd)|].
  split.
  { unfold client.SetMetadata, mbind, client.M_bind.
    rewrite (findAuthority_fired _ w1 Hd). reflexivity. }
  repeat split. exact Hd.
Qed.

(* ===================================================================== *)
(** * Theorems: the load-report codec *)
(* ===================================================================== *)

Section CodecFacts.

Context {OrcaLoadReport protoError : Type}.
Variable Marshal : OrcaLoadReport → option (list byte) * option protoError.
Variable Unmarshal : list byte → OrcaLoadReport + protoError.

(** [md.Get] finds what [Pairs] stored, whatever the case of the key. *)
Lemma Get_Pairs (k v : string) : metadata.Get (metadata.Pairs k v) k = [v].
Proof. unfold metadata.Get, metadata.Pairs. by rewrite lookup_singleton_eq. Qed.

Lemma ToMetadata_marshalled (r : OrcaLoadReport) (b : list byte) :
  Marshal r = (Some b, None) →
  orca.ToMetadata Marshal (Some r)
  = (metadata.Pairs orca.mdKey (string_of_list_byte b), []).
Proof. intros H. unfold orca.ToMetadata, orca.toBytes. by rewrite H. Qed.

Lemma FromMetadata_first (md : metadata.MD) (v : string) (vs : list string) :
  metadata.Get md orca.mdKey = v :: vs →
  orca.FromMetadata Unmarshal md
  = orca.fromBytes Unmarshal (list_byte_of_string v).
Proof. intros H. unfold orca.FromMetadata. by rewrite H. Qed.

Lemma FromMetadata_none (md : metadata.MD) :
  metadata.Get md orca.mdKey = [] →
  orca.FromMetadata Unmarshal md = (None, []).
Proof. intros H. unfold orca.FromMetadata. by rewrite H. Qed.

End CodecFacts.

(** C2.  For a report that [Marshal] serializes to the bytes [b] without
    error, where [Unmarshal] reads [b] back as the report (the round trip of
    the protobuf library), decoding the metadata that [ToMetadata] produces
    gives the report again, and nothing is logged on the way.  Encoding the nil
    report gives the nil metadata, which has no entry and no value under any
    key. *)
Theorem metadata_round_trip :
  ∀ (OrcaLoadReport protoError : Type)
    (Marshal : OrcaLoadReport → option (list byte) * option protoError)
    (Unmarshal : list byte → OrcaLoadReport + protoError)
    (r : OrcaLoadReport) (b : list byte),
    Marshal r = (Some b, None) →
    Unmarshal b = inl r →
    orca.FromMetadata Unmarshal (orca.ToMetadata Marshal (Some r)).1 = (Some r, [])
    ∧ (orca.ToMetadata Marshal (Some r)).2 = []
    ∧ orca.ToMetadata Marshal None = (None, [])
    ∧ metadata.Len None = 0
    ∧ (∀ k, metadata.Get None k = []).
Proof.
  intros R E Marshal Unmarshal r b HM HU.
  rewrite (ToMetadata_marshalled Marshal r b HM). cbn [fst snd].
  split; [|by repeat split].
  rewrite (FromMetadata_first Unmarshal _ _ [] (Get_Pairs _ _)).
  unfold orca.fromBytes.
  by rewrite list_byte_of_string_of_list_byte, HU.
Qed.

(** C2 on the one-byte codec at the figure 7. *)
Lemma metadata_round_trip_witness :
  orca.FromMetadata Instances.Unmarshal1
    (orca.ToMetadata Instances.Marshal1 (Some 7%N)).1 = (Some 7%N, []).
Proof.
  apply (metadata_round_trip N string Instances.Marshal1 Instances.Unmarshal1
           7%N ["007"%byte]); reflexivity.
Defined.

(** C6.  The codec absorbs the errors of the protobuf library: its functions
    return a value or nil, never an error.  When [Marshal] fails, [toBytes]
    logs one warning and returns nil, and [ToMetadata] returns the nil
    metadata; when [Unmarshal] fails on the bytes given, [fromBytes] logs one
    warning and returns nil, and so does [FromMetadata] on metadata whose first
    value under the key does not decode. *)
Theorem codec_absorbs_errors :
  ∀ (OrcaLoadReport protoError : Type)
    (Marshal : OrcaLoadReport → option (list byte) * option protoError)
    (Unmarshal : list byte → OrcaLoadReport + protoError),
    (∀ r b err, Marshal r = (b, Some err) →
       orca.toBytes Marshal (Some r)
       = (None, [orca.Warnf "orca: failed to marshal load report: %v" err])
       ∧ orca.ToMetadata Marshal (Some r)
         = (None, [orca.Warnf "orca: failed to marshal load report: %v" err]))
    ∧ (∀ b err, Unmarshal b = inr err →
         orca.fromBytes Unmarshal b
         = (None, [orca.Warnf "orca: failed to unmarshal load report: %v" err]))
    ∧ (∀ md v vs err,
         metadata.Get md orca.mdKey = v :: vs →
         Unmarshal (list_byte_of_string v) = inr err →
         orca.FromMetadata Unmarshal md
         = (None, [orca.Warnf "orca: failed to unmarshal load report: %v" err])).
Proof.
  intros R E Marshal Unmarshal. split; [|split].
  - intros r b err H. unfold orca.ToMetadata, orca.toBytes. by rewrite H.
  - intros b err H. unfold orca.fromBytes. by rewrite H.
  - intros md v vs err HG HU.
    rewrite (FromMetadata_first Unmarshal md v vs HG).
    unfold orca.fromBytes. by rewrite HU.
Qed.

(** C6 on the one-byte codec: the figure 300 does not serialize and the empty
    byte string does not decode. *)
Lemma codec_absorbs_errors_witness :
  orca.ToMetadata Instances.Marshal1 (Some 300%N)
  = (None, [orca.Warnf "orca: failed to marshal load report: %v"
              "figure out of range"])
  ∧ orca.fromBytes Instances.Unmarshal1 []
    = (None, [orca.Warnf "orca: failed to unmarshal load report: %v"
                "malformed report"]).
Proof.
  destruct (codec_absorbs_errors N string Instances.Marshal1 Instances.Unmarshal1)
    as (HM & HU & _).
  split.
  - apply (HM 300%N (Some [])). reflexivity.
  - apply HU. reflexivity.
Defined.

(** C7.  For a report that serializes to the bytes [b], [ToMetadata] produces
    metadata with one entry: the single value [string(b)] under the key
    [X-Endpoint-Load-Metrics-Bin], which [Pairs] stores and [Get] looks up in
    lower case.  [FromMetadata] returns nil, logging nothing, when the metadata
    is nil or has no value under the key.  Otherwise it decodes the first value
    under the key: it returns the report that [Unmarshal] reads from the bytes
    of that value, logging nothing, and nil with one warning when [Unmarshal]
    fails on them; the values after the first are not read. *)
Theorem metadata_single_entry :
  ∀ (OrcaLoadReport protoError : Type)
    (Marshal : OrcaLoadReport → option (list byte) * option protoError)
    (Unmarshal : list byte → OrcaLoadReport + protoError),
    (∀ r b, Marshal r = (Some b, None) →
       let md := (orca.ToMetadata Marshal (Some r)).1 in
       md = Some {[ "x-endpoint-load-metrics-bin" := [string_of_list_byte b] ]}
       ∧ metadata.Len md = 1
       ∧ metadata.Get md orca.mdKey = [string_of_list_byte b])
    ∧ orca.FromMetadata Unmarshal None = (None, [])
    ∧ (∀ m, m !! "x-endpoint-load-metrics-bin" = None →
         orca.FromMetadata Unmarshal (Some m) = (None, []))
    ∧ (∀ md, metadata.Get md orca.mdKey = [] →
         orca.FromMetadata Unmarshal md = (None, []))
    ∧ (∀ md v vs, metadata.Get md orca.mdKey = v :: vs →
         orca.FromMetadata Unmarshal md
         = orca.fromBytes Unmarshal (list_byte_of_string v))
    ∧ (∀ md v vs ret, metadata.Get md orca.mdKey = v :: vs →
         Unmarshal (list_byte_of_string v) = inl ret →
         orca.FromMetadata Unmarshal md = (Some ret, []))
    ∧ (∀ md v vs err, metadata.Get md orca.mdKey = v :: vs →
         Unmarshal (list_byte_of_string v) = inr err →
         orca.FromMetadata Unmarshal md
         = (None, [orca.Warnf "orca: failed to unmarshal load report: %v" err]))
    ∧ (∀ m v vs ret, m !! "x-endpoint-load-metrics-bin" = Some (v :: vs) →
         Unmarshal (list_byte_of_string v) = inl ret →
         orca.FromMetadata Unmarshal (Some m) = (Some ret, [])).
Proof.
  intros R E Marshal Unmarshal.
  assert (Hdec : ∀ md v vs ret, metadata.Get md orca.mdKey = v :: vs →
            Unmarshal (list_byte_of_string v) = inl ret →
            orca.FromMetadata Unmarshal md = (Some ret, [])).
  { intros md v vs ret HG HU. rewrite (FromMetadata_first Unmarshal md v vs HG).
    unfold orca.fromBytes. by rewrite HU. }
  split; [|split; [|split; [|split; [|split; [|split; [|split]]]]]].
  - intros r b HM md. unfold md.
    rewrite (ToMetadata_marshalled Marshal r b HM). cbn [fst].
    split; [reflexivity|]. split; [apply map_size_singleton | apply Get_Pairs].
  - reflexivity.
  - intros m Hm. apply FromMetadata_none. unfold metadata.Get.
    change (metadata.ToLower orca.mdKey) with "x-endpoint-load-metrics-bin".
    by rewrite Hm.
  - apply FromMetadata_none.
  - apply FromMetadata_first.
  - exact Hdec.
  - intros md v vs err HG HU. rewrite (FromMetadata_first Unmarshal md v vs HG).
    unfold orca.fromBytes. by rewrite HU.
  - intros m v vs ret Hm HU. apply (Hdec (Some m) v vs ret); [|exact HU].
    unfold metadata.Get.
    change (metadata.ToLower orca.mdKey) with "x-endpoint-load-metrics-bin".
    by rewrite Hm.
Qed.

(** C7 on the one-byte codec: the metadata of the figure 7 has one entry, read
    back under the key; metadata with no value under the key gives nil;
    metadata with two values under the key decodes the first, the figure 9; and
    a first value of two bytes does not decode. *)
Lemma metadata_single_entry_witness :
  let md := (orca.ToMetadata Instances.Marshal1 (Some 7%N)).1 in
  metadata.Len md = 1
  ∧ metadata.Get md "X-Endpoint-Load-Metrics-Bin"
    = [string_of_list_byte ["007"%byte]]
  ∧ orca.FromMetadata Instances.Unmarshal1
      (Some {[ "x-endpoint-load-metrics-bin" := [] ]}) = (None, [])
  ∧ orca.FromMetadata Instances.Unmarshal1
      (Some {[ "x-endpoint-load-metrics-bin" :=
                 [string_of_list_byte ["009"%byte];
                  string_of_list_byte ["007"%byte]] ]}) = (Some 9%N, [])
  ∧ orca.FromMetadata Instances.Unmarshal1
      (Some {[ "x-endpoint-load-metrics-bin" :=
                 [string_of_list_byte ["009"%byte; "007"%byte]] ]})
    = (None, [orca.Warnf "orca: failed to unmarshal load report: %v"
                "malformed report"]).
Proof.
  destruct (metadata_single_entry N string Instances.Marshal1 Instances.Unmarshal1)
    as (Hto & _ & _ & Hnone & _ & _ & Hfail & Hdec).
  destruct (Hto 7%N ["007"%byte]) as (_ & Hlen & Hget); [reflexivity|].
  split; [exact Hlen|]. split; [exact Hget|].
  split; [apply Hnone; reflexivity|]. split.
  - apply (Hdec _ (string_of_list_byte ["009"%byte])
             [string_of_list_byte ["007"%byte]]).
    + apply lookup_singleton_eq.
    + reflexivity.
  - apply (Hfail _ (string_of_list_byte ["009"%byte; "007"%byte]) []);
      reflexivity.
Defined.

(* ===================================================================== *)
(** * Further properties: functional options *)
(* ===================================================================== *)

(** X1.  The two options commute, a later use of an option overrides an
    earlier use of the same option, and the two together fix the whole
    record whatever it held before. *)
Theorem options_compose :
  ∀ (opt : config_center.Options) (g g' : string) (t t' : config_center.Duration),
    config_center.WithGroup g (config_center.WithTimeout t opt)
    = config_center.WithTimeout t (config_center.WithGroup g opt)
    ∧ config_center.WithGroup g' (config_center.WithGroup g opt)
      = config_center.WithGroup g' opt
    ∧ config_center.WithTimeout t' (config_center.WithTimeout t opt)
      = config_center.WithTimeout t' opt
    ∧ config_center.WithGroup g (config_center.WithTimeout t opt)
      = {| config_center.Group := g; config_center.Timeout := t |}.
Proof. intros [g0 t0] g g' t t'. repeat split. Qed.

(* ===================================================================== *)
(** * Further properties: the update validator *)
(* ===================================================================== *)

(** X2.  The validator accepts a security config exactly when each of its two
    names is unset or a key of the provider table. *)
Theorem validator_accepts_iff :
  ∀ (c : client.clientImpl) (sc : resource.SecurityConfig),
    client.securityConfigUpdateValidator c (Some sc) = None
    ↔ client.provided c (resource.IdentityInstanceName sc)
      ∧ client.provided c (resource.RootInstanceName sc).
Proof.
  intros c sc. split.
  - intros Hacc.
    destruct (provided_or_missing c (resource.IdentityInstanceName sc)) as [Hi|Hi].
    + destruct (provided_or_missing c (resource.RootInstanceName sc)) as [Hr|Hr].
      * by split.
      * rewrite (validator_root_missing c sc Hi Hr) in Hacc. discriminate.
    + rewrite (validator_identity_missing c sc Hi) in Hacc. discriminate.
  - intros [Hi Hr]. by apply validator_accepts.
Qed.

(** X2 with the table [bar]: the names [bar] (identity) and unset (root) are
    accepted, and an accepted config with identity [bar] has a provided
    root. *)
Lemma validator_accepts_iff_witness :
  let sc := {| resource.RootInstanceName := "";
               resource.IdentityInstanceName := "bar" |} in
  client.securityConfigUpdateValidator MoreInstances.onlyBar (Some sc) = None
  ∧ client.provided MoreInstances.onlyBar "".
Proof.
  intros sc.
  pose proof (validator_accepts_iff MoreInstances.onlyBar sc) as [Hto Hfrom].
  assert (Hacc : client.securityConfigUpdateValidator MoreInstances.onlyBar
                   (Some sc) = None).
  { apply Hfrom. split; [right; vm_compute; eauto | left; reflexivity]. }
  split; [exact Hacc | exact (proj2 (Hto Hacc))].
Defined.

(** X3.  When the identity name is unset or present and the root name is set
    and missing, the validator rejects the config, alone or carried by a
    cluster update, with the root error formatted from the root name, whose
    message quotes that name. *)
Theorem validation_rejects_unknown_root :
  ∀ (c : client.clientImpl) (sc : resource.SecurityConfig)
    (clusterName : string) (Quote : string → string),
    client.provided c (resource.IdentityInstanceName sc) →
    client.missing c (resource.RootInstanceName sc) →
    let err := fmt.Errorf
      "root certificate provider instance name %q missing in bootstrap configuration"
      [resource.RootInstanceName sc] in
    client.securityConfigUpdateValidator c (Some sc) = Some err
    ∧ client.updateValidator c
        (ClusterUpdateValue
           {| resource.ClusterUpdate.ClusterName := clusterName;
              resource.ClusterUpdate.SecurityCfg := Some sc |}) = Some err
    ∧ client.filterChainUpdateValidator c
        (Some {| resource.FilterChain.SecurityCfg := Some sc |}) = Some err
    ∧ fmt.Error Quote err
      = Some ("root certificate provider instance name "
              +:+ Quote (resource.RootInstanceName sc)
              +:+ " missing in bootstrap configuration").
Proof.
  intros c sc clusterName Quote Hi Hr err.
  pose proof (validator_root_missing c sc Hi Hr) as Hv.
  repeat split; exact Hv.
Qed.

(** X3 with the table [bar], identity [bar] and root [baz]. *)
Lemma validation_rejects_unknown_root_witness :
  client.securityConfigUpdateValidator MoreInstances.onlyBar
    (Some {| resource.RootInstanceName := "baz";
             resource.IdentityInstanceName := "bar" |})
  = Some (fmt.Errorf
      "root certificate provider instance name %q missing in bootstrap configuration"
      ["baz"]).
Proof.
  apply (validation_rejects_unknown_root MoreInstances.onlyBar
           {| resource.RootInstanceName := "baz";
              resource.IdentityInstanceName := "bar" |}
           "cluster" Instances.QuotePlain).
  - right. vm_compute. eauto.
  - split; [discriminate | vm_compute; reflexivity].
Defined.

(** X4.  The verdict depends on the client only through the set of keys of
    its provider table: two clients whose tables have the same keys, whatever
    the entries and whatever the rest of their state, give the same result on
    every security config, filter chain and cluster update. *)
Theorem validator_reads_keys_only :
  ∀ (c1 c2 : client.clientImpl),
    dom (bootstrap.CertProviderConfigs (client.config c1))
    = dom (bootstrap.CertProviderConfigs (client.config c2)) →
    (∀ sc, client.securityConfigUpdateValidator c1 sc
           = client.securityConfigUpdateValidator c2 sc)
    ∧ (∀ fc, client.filterChainUpdateValidator c1 fc
             = client.filterChainUpdateValidator c2 fc)
    ∧ (∀ update, client.updateValidator c1 (ClusterUpdateValue update)
                 = client.updateValidator c2 (ClusterUpdateValue update)).
Proof.
  intros c1 c2 Hdom.
  assert (Hkey : ∀ name,
    bool_decide (is_Some (bootstrap.CertProviderConfigs (client.config c1) !! name))
    = bool_decide (is_Some (bootstrap.CertProviderConfigs (client.config c2) !! name))).
  { intros name. apply bool_decide_ext. by rewrite <- !elem_of_dom, Hdom. }
  assert (Hsc : ∀ sc, client.securityConfigUpdateValidator c1 sc
                      = client.securityConfigUpdateValidator c2 sc).
  { intros [sc|]; [|reflexivity].
    unfold client.securityConfigUpdateValidator. cbv zeta. by rewrite !Hkey. }
  split; [exact Hsc|]. split.
  - intros [fc|]; [apply Hsc | reflexivity].
  - intros update. apply Hsc.
Qed.

(** X4 on a fresh client and a client that has fired its done flag and holds
    authorities, both with a table whose only key is [bar]. *)
Lemma validator_reads_keys_only_witness :
  let sc := Some {| resource.RootInstanceName := "baz";
                    resource.IdentityInstanceName := "bar" |} in
  client.securityConfigUpdateValidator MoreInstances.onlyBar sc
  = client.securityConfigUpdateValidator
      (client.this (client.Close Instances.w3).2) sc.
Proof.
  intros sc.
  apply (validator_reads_keys_only MoreInstances.onlyBar
           (client.this (client.Close Instances.w3).2)).
  vm_compute. reflexivity.
Defined.

(** X5.  Adding providers never turns acceptance into rejection: a security
    config accepted under a table is accepted under every table that has at
    least the same keys. *)
Theorem validator_monotone :
  ∀ (c1 c2 : client.clientImpl) (sc : option resource.SecurityConfig),
    dom (bootstrap.CertProviderConfigs (client.config c1))
    ⊆ dom (bootstrap.CertProviderConfigs (client.config c2)) →
    client.securityConfigUpdateValidator c1 sc = None →
    client.securityConfigUpdateValidator c2 sc = None.
Proof.
  intros c1 c2 [sc|] Hsub Hacc; [|reflexivity].
  assert (Hprov : ∀ name, client.provided c1 name → client.provided c2 name).
  { intros name [->|Hin]; [by left | right].
    apply elem_of_dom, Hsub, elem_of_dom, Hin. }
  destruct (provided_or_missing c1 (resource.IdentityInstanceName sc)) as [Hi|Hi].
  - destruct (provided_or_missing c1 (resource.RootInstanceName sc)) as [Hr|Hr].
    + apply validator_accepts; by apply Hprov.
    + rewrite (validator_root_missing c1 sc Hi Hr) in Hacc. discriminate.
  - rewrite (validator_identity_missing c1 sc Hi) in Hacc. discriminate.
Qed.

(** X5 from the table [bar] to the table [bar], [baz]. *)
Lemma validator_monotone_witness :
  client.securityConfigUpdateValidator MoreInstances.barAndBaz
    (Some {| resource.RootInstanceName := "bar";
             resource.IdentityInstanceName := "" |}) = None.
Proof.
  apply (validator_monotone MoreInstances.onlyBar MoreInstances.barAndBaz).
  - intros k Hk. apply elem_of_dom in Hk as [x Hx].
    change (bootstrap.CertProviderConfigs (client.config MoreInstances.onlyBar))
      with ({[ "bar" := MoreInstances.plugin ]}
            : gmap string bootstrap.BuildableConfig) in Hx.
    apply lookup_singleton_Some in Hx as [<- _].
    apply elem_of_dom. vm_compute. eauto.
  - reflexivity.
Defined.

(* ===================================================================== *)
(** * Further properties: construction, shutdown and metadata *)
(* ===================================================================== *)

(** X6.  [Close] changes nothing of the client but the done flag and the
    content of the idle cache: the bootstrap configuration, the two timeouts
    and the active registry are as before.  In particular the registry is not
    emptied: it still holds the authorities that were closed. *)
Theorem Close_frame :
  ∀ (w : client.world),
    let c := client.this w in
    let c' := client.this (client.Close w).2 in
    client.config c' = client.config c
    ∧ client.authorities c' = client.authorities c
    ∧ client.watchExpiryTimeout c' = client.watchExpiryTimeout c
    ∧ client.timeout (client.idleAuthorities c')
      = client.timeout (client.idleAuthorities c).
Proof.
  intros w c c'. unfold c', c.
  destruct (client.HasFired (client.done (client.this w))) eqn:H.
  - by rewrite (Close_fired w H).
  - by rewrite (Close_first w H).
Qed.

(** X7.  A client built by [newWithConfig] is open, with an empty registry
    and an empty idle cache, and holds the configuration and the timeouts it
    was given.  Closing it at once closes no authority: the heap is the one the
    constructor found, and the trace gains the two lines of the constructor,
    one lock and unlock with nothing in between, and the shutdown line. *)
Theorem Close_after_newWithConfig :
  ∀ (cfg : bootstrap.Config) (t1 t2 : config_center.Duration) (s : client.store),
    let w := client.newWithConfig cfg t1 t2 s in
    let w' := (client.Close w).2 in
    client.HasFired (client.done (client.this w)) = false
    ∧ client.config (client.this w) = cfg
    ∧ client.watchExpiryTimeout (client.this w) = t1
    ∧ client.timeout (client.idleAuthorities (client.this w)) = t2
    ∧ client.authorities (client.this w) = ∅
    ∧ client.cache (client.idleAuthorities (client.this w)) = ∅
    ∧ client.heap (client.mem w) = client.heap s
    ∧ client.HasFired (client.done (client.this w')) = true
    ∧ client.heap (client.mem w') = client.heap s
    ∧ client.trace (client.mem w')
      = client.trace s
        ++ [client.EvInfof "Created ClientConn to xDS management server: %s"
              [bootstrap.XDSServer cfg];
            client.EvInfof "Created" [];
            client.EvLock; client.EvUnlock;
            client.EvInfof "Shutdown" []].
Proof.
  intros cfg t1 t2 s w w'.
  assert (Hf : client.HasFired (client.done (client.this w)) = false)
    by reflexivity.
  do 7 (split; [reflexivity|]).
  split; [apply Close_done|].
  unfold w'. rewrite (Close_first w Hf). cbn [snd client.mem].
  change (client.cache (client.idleAuthorities (client.this w)))
    with (∅ : gmap string client.cacheEntry).
  change (client.registered (client.this w))
    with ((map_to_list (∅ : gmap string client.addr)).*2).
  rewrite !map_to_list_empty. cbn.
  split; [reflexivity|].
  change (client.trace (client.mem w))
    with ((client.trace s
           ++ [client.EvInfof "Created ClientConn to xDS management server: %s"
                 [bootstrap.XDSServer cfg]])
          ++ [client.EvInfof "Created" []]).
  by rewrite <- !app_assoc.
Qed.

(** X8.  When the authority is found and its [SetMetadata] fails,
    [clientImpl.SetMetadata] returns that error and starts no watch: the state
    is the one the failed call left. *)
Theorem SetMetadata_failure_starts_no_watch :
  ∀ (Struct : Type)
    (authority_SetMetadata :
       client.addr → option Struct → client.store → option fmt.error * client.store)
    (authority_watchEndpoints : client.addr → string → client.store → client.store)
    (m : option Struct) (w w1 : client.world) (a : client.addr)
    (err : fmt.error) (s : client.store),
    client.findAuthority (resource.ParseName "") w = (inl a, w1) →
    authority_SetMetadata a m (client.mem w1) = (Some err, s) →
    client.SetMetadata Struct authority_SetMetadata authority_watchEndpoints m w
    = (Some err, {| client.this := client.this w1; client.mem := s |}).
Proof.
  intros Struct aSM aWE m w w1 a err s Hfind Hset.
  unfold client.SetMetadata, mbind, client.M_bind.
  rewrite Hfind. cbn beta iota. by rewrite Hset.
Qed.

(** X8 on a fresh client, with metadata that the authority refuses. *)
Lemma SetMetadata_failure_starts_no_watch_witness :
  client.SetMetadata string MoreInstances.setMetadata MoreInstances.watchEndpoints
    None Instances.w0
  = (Some (fmt.Errorf "authority: metadata is nil" []),
     (client.findAuthority (resource.ParseName "") Instances.w0).2).
Proof.
  rewrite (SetMetadata_failure_starts_no_watch string
             MoreInstances.setMetadata MoreInstances.watchEndpoints None
             Instances.w0
             (client.findAuthority (resource.ParseName "") Instances.w0).2
             0 (fmt.Errorf "authority: metadata is nil" [])
             (client.mem (client.findAuthority (resource.ParseName "") Instances.w0).2)).
  - reflexivity.
  - vm_compute. reflexivity.
  - reflexivity.
Defined.

(** X9.  When the authority is found and its [SetMetadata] succeeds,
    [clientImpl.SetMetadata] then starts the endpoints watch on the empty
    resource name at that authority and returns nil. *)
Theorem SetMetadata_success_starts_watch :
  ∀ (Struct : Type)
    (authority_SetMetadata :
       client.addr → option Struct → client.store → option fmt.error * client.store)
    (authority_watchEndpoints : client.addr → string → client.store → client.store)
    (m : option Struct) (w w1 : client.world) (a : client.addr)
    (s : client.store),
    client.findAuthority (resource.ParseName "") w = (inl a, w1) →
    authority_SetMetadata a m (client.mem w1) = (None, s) →
    client.SetMetadata Struct authority_SetMetadata authority_watchEndpoints m w
    = (None, {| client.this := client.this w1;
                client.mem := authority_watchEndpoints a "" s |}).
Proof.
  intros Struct aSM aWE m w w1 a s Hfind Hset.
  unfold client.SetMetadata, mbind, client.M_bind.
  rewrite Hfind. cbn beta iota. by rewrite Hset.
Qed.

(** X9 on a fresh client, with metadata that the authority takes: the watch
    leaves its reference on the authority at address 0. *)
Lemma SetMetadata_success_starts_watch_witness :
  let w1 := (client.findAuthority (resource.ParseName "") Instances.w0).2 in
  client.SetMetadata string MoreInstances.setMetadata MoreInstances.watchEndpoints
    (Some "node") Instances.w0
  = (None, {| client.this := client.this w1;
              client.mem := MoreInstances.watchEndpoints 0 "" (client.mem w1) |}).
Proof.
  intros w1.
  apply (SetMetadata_success_starts_watch string
           MoreInstances.setMetadata MoreInstances.watchEndpoints (Some "node")
           Instances.w0 w1 0 (client.mem w1)).
  - vm_compute. reflexivity.
  - reflexivity.
Defined.

(* ===================================================================== *)
(** * Further properties: the load-report codec *)
(* ===================================================================== *)

(** X10.  The metadata carries the serialized bytes unchanged: for a report
    that serializes to [b], decoding the metadata produced for it is decoding
    [b], whatever [Unmarshal] makes of these bytes. *)
Theorem metadata_transports_bytes :
  ∀ (OrcaLoadReport protoError : Type)
    (Marshal : OrcaLoadReport → option (list byte) * option protoError)
    (Unmarshal : list byte → OrcaLoadReport + protoError)
    (r : OrcaLoadReport) (b : list byte),
    Marshal r = (Some b, None) →
    orca.FromMetadata Unmarshal (orca.ToMetadata Marshal (Some r)).1
    = orca.fromBytes Unmarshal b.
Proof.
  intros R E Marshal Unmarshal r b HM.
  rewrite (ToMetadata_marshalled Marshal r b HM). cbn [fst].
  rewrite (FromMetadata_first Unmarshal _ _ [] (Get_Pairs _ _)).
  by rewrite list_byte_of_string_of_list_byte.
Qed.

(** X10 with a decoder that refuses every input: the failure to decode the
    transported byte is logged and the result is nil. *)
Lemma metadata_transports_bytes_witness :
  orca.FromMetadata (fun _ : list byte => inr "refused" : N + string)
    (orca.ToMetadata Instances.Marshal1 (Some 7%N)).1
  = (None, [orca.Warnf "orca: failed to unmarshal load report: %v" "refused"]).
Proof.
  rewrite (metadata_transports_bytes N string Instances.Marshal1
             (fun _ => inr "refused") 7%N ["007"%byte]); reflexivity.
Defined.

(** X11.  [FromMetadata] reads nothing but the first value under its key:
    setting or deleting any other key of the metadata, or changing the values
    that follow the first one under the key, does not change its result. *)
Theorem FromMetadata_frame :
  ∀ (OrcaLoadReport protoError : Type)
    (Unmarshal : list byte → OrcaLoadReport + protoError)
    (m : gmap string (list string)),
    (∀ k vs, k ≠ "x-endpoint-load-metrics-bin" →
       orca.FromMetadata Unmarshal (Some (<[k := vs]> m))
       = orca.FromMetadata Unmarshal (Some m))
    ∧ (∀ k, k ≠ "x-endpoint-load-metrics-bin" →
         orca.FromMetadata Unmarshal (Some (delete k m))
         = orca.FromMetadata Unmarshal (Some m))
    ∧ (∀ v vs vs',
         orca.FromMetadata Unmarshal
           (Some (<[ "x-endpoint-load-metrics-bin" := v :: vs ]> m))
         = orca.FromMetadata Unmarshal
             (Some (<[ "x-endpoint-load-metrics-bin" := v :: vs' ]> m))).
Proof.
  intros R E Unmarshal m. unfold orca.FromMetadata, metadata.Get.
  change (metadata.ToLower orca.mdKey) with "x-endpoint-load-metrics-bin".
  split; [|split].
  - intros k vs Hne. by rewrite lookup_insert_ne.
  - intros k Hne. by rewrite lookup_delete_ne.
  - intros v vs vs'. by rewrite !lookup_insert_eq.
Qed.

(** X11 on metadata that also holds a value under the mixed-case spelling of
    the key, which is another key of the map and is not read. *)
Lemma FromMetadata_frame_witness :
  orca.FromMetadata Instances.Unmarshal1
    (Some (<[ "X-Endpoint-Load-Metrics-Bin" := ["ignored"] ]>
             {[ "x-endpoint-load-metrics-bin" := [string_of_list_byte ["007"%byte]] ]}))
  = (Some 7%N, []).
Proof.
  destruct (FromMetadata_frame N string Instances.Unmarshal1
              {[ "x-endpoint-load-metrics-bin" := [string_of_list_byte ["007"%byte]] ]})
    as (Hins & _ & _).
  rewrite Hins; [reflexivity | discriminate].
Defined.

(** X12.  [ToMetadata] returns the nil metadata exactly when the report is
    nil, or [Marshal] returns an error, or [Marshal] returns the nil slice.  A
    report that serializes to the empty, non-nil slice does get its entry. *)
Theorem ToMetadata_nil_iff :
  ∀ (OrcaLoadReport protoError : Type)
    (Marshal : OrcaLoadReport → option (list byte) * option protoError)
    (r : option OrcaLoadReport),
    (orca.ToMetadata Marshal r).1 = None
    ↔ (r = None
       ∨ ∃ r0, r = Some r0
               ∧ (is_Some (Marshal r0).2 ∨ (Marshal r0).1 = None)).
Proof.
  intros R E Marshal [r0|]; unfold orca.ToMetadata, orca.toBytes.
  - destruct (Marshal r0) as [[b|] [err|]] eqn:HM; cbn [fst snd]; split.
    + intros _. right. exists r0. split; [done|]. left. rewrite HM. by eexists.
    + done.
    + discriminate.
    + intros [Hn|(r1 & Hr & Hc)]; [discriminate|].
      injection Hr as <-. rewrite HM in Hc. cbn in Hc.
      destruct Hc as [[x Hx]|Hb]; discriminate.
    + intros _. right. exists r0. split; [done|]. left. rewrite HM. by eexists.
    + done.
    + intros _. right. exists r0. split; [done|]. right. by rewrite HM.
    + done.
  - split; [by left | done].
Qed.

(** X12 on the one-byte codec: the figure 300 gives the nil metadata, the
    figure 7 does not. *)
Lemma ToMetadata_nil_iff_witness :
  (orca.ToMetadata Instances.Marshal1 (Some 300%N)).1 = None
  ∧ ¬ (is_Some (Instances.Marshal1 7%N).2 ∨ (Instances.Marshal1 7%N).1 = None).
Proof.
  split.
  - apply (ToMetadata_nil_iff N string Instances.Marshal1 (Some 300%N)).
    right. exists 300%N. split; [reflexivity|]. left. vm_compute. eauto.
  - intros Hc.
    assert (H : (orca.ToMetadata Instances.Marshal1 (Some 7%N)).1 = None).
    { apply (ToMetadata_nil_iff N string Instances.Marshal1 (Some 7%N)).
      right. exists 7%N. split; [reflexivity | exact Hc]. }
    vm_compute in H. discriminate.
Defined.

(** X13.  [FromMetadata] returns a report exactly when the metadata has a
    value under the key and [Unmarshal] reads its first value as that report;
    in that case nothing is logged. *)
Theorem FromMetadata_some_iff :
  ∀ (OrcaLoadReport protoError : Type)
    (Unmarshal : list byte → OrcaLoadReport + protoError)
    (md : metadata.MD) (r : OrcaLoadReport),
    (orca.FromMetadata Unmarshal md).1 = Some r
    ↔ (∃ v vs, metadata.Get md orca.mdKey = v :: vs
               ∧ Unmarshal (list_byte_of_string v) = inl r
               ∧ (orca.FromMetadata Unmarshal md).2 = []).
Proof.
  intros R E Unmarshal md r. unfold orca.FromMetadata, orca.fromBytes.
  destruct (metadata.Get md orca.mdKey) as [|v vs].
  - split; [discriminate | by intros (? & ? & ? & _)].
  - destruct (Unmarshal (list_byte_of_string v)) as [r'|err] eqn:HU; cbn.
    + split.
      * intros [= <-]. by exists v, vs.
      * intros (v' & vs' & [= <- <-] & HU' & _). congruence.
    + split; [discriminate|].
      intros (v' & vs' & [= <- <-] & HU' & _). congruence.
Qed.

(** X13 on the one-byte codec, with two values under the key. *)
Lemma FromMetadata_some_iff_witness :
  (orca.FromMetadata Instances.Unmarshal1
     (Some {[ "x-endpoint-load-metrics-bin" :=
                [string_of_list_byte ["007"%byte]; "later"] ]})).1 = Some 7%N.
Proof.
  apply (FromMetadata_some_iff N string Instances.Unmarshal1).
  exists (string_of_list_byte ["007"%byte]), ["later"].
  repeat split.
Defined.

(** X14.  The codec logs a warning exactly when the protobuf library returns
    an error, and one line at most: [ToMetadata] logs nothing when the report
    is nil or [Marshal] returns no error, [FromMetadata] logs nothing when
    there is no value under the key or its first value decodes. *)
Theorem codec_logs_iff_library_error :
  ∀ (OrcaLoadReport protoError : Type)
    (Marshal : OrcaLoadReport → option (list byte) * option protoError)
    (Unmarshal : list byte → OrcaLoadReport + protoError)
    (r : option OrcaLoadReport) (md : metadata.MD),
    ((orca.ToMetadata Marshal r).2 = []
     ↔ ∀ r0, r = Some r0 → (Marshal r0).2 = None)
    ∧ ((orca.FromMetadata Unmarshal md).2 = []
       ↔ ∀ v vs, metadata.Get md orca.mdKey = v :: vs →
                 ∃ ret, Unmarshal (list_byte_of_string v) = inl ret)
    ∧ length (orca.ToMetadata Marshal r).2 ≤ 1
    ∧ length (orca.FromMetadata Unmarshal md).2 ≤ 1.
Proof.
  intros R E Marshal Unmarshal r md.
  unfold orca.ToMetadata, orca.toBytes, orca.FromMetadata, orca.fromBytes.
  split; [|split; [|split]].
  - destruct r as [r0|]; [|by split].
    destruct (Marshal r0) as [[b|] [err|]] eqn:HM; cbn; split;
      try discriminate; try (intros _ r1 [= <-]; by rewrite HM);
      try (intros H; specialize (H r0 eq_refl); rewrite HM in H; discriminate);
      done.
  - destruct (metadata.Get md orca.mdKey) as [|v vs]; [by split|].
    destruct (Unmarshal (list_byte_of_string v)) as [ret|err] eqn:HU; cbn; split.
    + intros _ v' vs' [= <- <-]. eauto.
    + done.
    + discriminate.
    + intros H. destruct (H v vs eq_refl) as [ret Hret]. congruence.
  - destruct r as [r0|]; [|cbn; lia].
    destruct (Marshal r0) as [[b|] [err|]]; cbn; lia.
  - destruct (metadata.Get md orca.mdKey) as [|v vs]; [cbn; lia|].
    destruct (Unmarshal (list_byte_of_string v)); cbn; lia.
Qed.

(** X14 on the one-byte codec: nothing is logged for the figure 7. *)
Lemma codec_logs_iff_library_error_witness :
  (orca.ToMetadata Instances.Marshal1 (Some 7%N)).2 = [].
Proof.
  destruct (codec_logs_iff_library_error N string Instances.Marshal1
              Instances.Unmarshal1 (Some 7%N) None) as ([_ Hquiet] & _).
  apply Hquiet. intros r0 [= <-]. reflexivity.
Defined.
